(** * DeferObservable: deferred, per-subscriber production

    A shallow embedding of [src/internal/observable/DeferObservable.ts].

    The file has two classes.  [DeferObservable] stores a factory and, on
    every subscription, builds a [DeferSubscriber]; the constructor of
    [DeferSubscriber] runs [tryDefer], which calls [_callFactory] inside a
    [try]/[catch] and hands a caught exception to [_error].

    JavaScript control flow (normal return or [throw]) is written in a small
    state-and-exception monad, [Js].  The classes the file imports
    ([Subscriber], [OuterSubscriber], [Subscription]) and the function
    [subscribeToResult] live in other files; their behaviour is written down
    from the specification and marked as such. *)

From stdpp Require Import base list strings.
From Stdlib Require Import ZArith Lia.

Set Default Proof Using "Type".

(** ** JavaScript values *)

(** Values that travel inside signals or are thrown. *)
Inductive Prim : Type :=
| Undefined
| Null
| Boolean (b : bool)
| Number (z : Z)
| NaN
| Str (s : string)
| TypeError (msg : string)
| Opaque (ref : nat).

(** The three signals of the consumer interface. *)
Inductive Signal : Type :=
| Next (v : Prim)
| Error (e : Prim)
| Complete.

Definition isTerminal (sig : Signal) : bool :=
  match sig with
  | Next _ => false
  | Error _ | Complete => true
  end.

(** What can happen to a subscriber once it exists: its inner producer pushes
    a signal, or downstream cancels. *)
Inductive Event : Type :=
| Inner (sig : Signal)
| Unsubscribe.

(** A conformant producer, described by what it pushes before its
    [subscribe] call returns (interleaved with cancellations that downstream
    issues re-entrantly while handling a value). *)
Record Producer : Type := { onSubscribe : list Event }.

(** What a factory may return: [ObservableInput<T> | void]. *)
Inductive JsValue : Type :=
| Primitive (p : Prim)
| ObservableOf (src : Producer)
| PromiseLike (resolution : Prim)
| ArrayLike (items : list Prim).

(** The truthiness test of [if (result)]. *)
Definition ToBoolean (v : JsValue) : bool :=
  match v with
  | Primitive Undefined | Primitive Null | Primitive NaN => false
  | Primitive (Boolean b) => b
  | Primitive (Number z) => negb (Z.eqb z 0)
  | Primitive (Str EmptyString) => false
  | Primitive (Str (String _ _)) => true
  | Primitive (TypeError _) | Primitive (Opaque _) => true
  | ObservableOf _ | PromiseLike _ | ArrayLike _ => true
  end.

(** ** Control flow *)

Inductive Completion (A : Type) : Type :=
| Normal (a : A)
| Abrupt (thrown : Prim).
Arguments Normal {A} a.
Arguments Abrupt {A} thrown.

Definition Js (S A : Type) : Type := S -> S * Completion A.

Definition ret {S A} (a : A) : Js S A := fun st => (st, Normal a).

Definition throw {S A} (e : Prim) : Js S A := fun st => (st, Abrupt e).

Definition bind {S A B} (c : Js S A) (k : A -> Js S B) : Js S B :=
  fun st =>
    match c st with
    | (st', Normal a) => k a st'
    | (st', Abrupt e) => (st', Abrupt e)
    end.

Definition try_catch {S A} (body : Js S A) (handler : Prim -> Js S A) : Js S A :=
  fun st =>
    match body st with
    | (st', Normal a) => (st', Normal a)
    | (st', Abrupt e) => handler e st'
    end.

Notation "'let*' x ':=' c 'in' k" := (bind c (fun x => k))
  (at level 10, x name, c at level 100, k at level 200).

(** ** What a subscriber does, in order *)

Inductive Effect : Type :=
| Invoke
| Normalize (input : JsValue)
| Forward (sig : Signal)
| Add (child : nat)
| Release (child : nat).

(** The calls the downstream consumer has received. *)
Fixpoint downstream (j : list Effect) : list Signal :=
  match j with
  | [] => []
  | Forward sig :: rest => sig :: downstream rest
  | _ :: rest => downstream rest
  end.

Definition isInvoke (e : Effect) : bool :=
  match e with Invoke => true | _ => false end.

Definition isNormalize (e : Effect) : bool :=
  match e with Normalize _ => true | _ => false end.

Definition isAdd (h : nat) (e : Effect) : bool :=
  match e with Add k => Nat.eqb h k | _ => false end.

Definition isRelease (h : nat) (e : Effect) : bool :=
  match e with Release k => Nat.eqb h k | _ => false end.

Definition anyAdd (e : Effect) : bool :=
  match e with Add _ => true | _ => false end.

Definition anyRelease (e : Effect) : bool :=
  match e with Release _ => true | _ => false end.

Fixpoint tally (pick : Effect -> bool) (j : list Effect) : nat :=
  match j with
  | [] => 0
  | e :: rest => (if pick e then 1 else 0) + tally pick rest
  end.

Fixpoint occurrences (h : nat) (l : list nat) : nat :=
  match l with
  | [] => 0
  | k :: rest => (if Nat.eqb h k then 1 else 0) + occurrences h rest
  end.

(** A downstream log obeys the protocol when nothing follows a terminal
    signal. *)
Fixpoint valuesOnly (l : list Signal) : bool :=
  match l with
  | [] => true
  | sig :: rest => negb (isTerminal sig) && valuesOnly rest
  end.

Fixpoint terminalLast (l : list Signal) : bool :=
  match l with
  | [] => true
  | sig :: rest =>
      if isTerminal sig then match rest with [] => true | _ => false end
      else terminalLast rest
  end.

Fixpoint terminals (l : list Signal) : nat :=
  match l with
  | [] => 0
  | sig :: rest => (if isTerminal sig then 1 else 0) + terminals rest
  end.

(** ** The two classes *)

Inductive Ending : Type := Completed | Errored | Cancelled.

Inductive Lifecycle : Type :=
| Live
| Terminated (how : Ending).

Inductive FailureMode : Type :=
| FailsSynchronously
| FailsBySignal.

Inductive Normalized : Type :=
| Conformant (p : Producer)
| Unrecognized (why : Prim).

Section Model.
Context {E : Type}.

(** The argument of [create].  TypeScript asks for a function, but the type
    is erased at run time, so any value can arrive.  A function is a body
    that reads and writes the state [E] it closes over. *)
Inductive Callee : Type :=
| Function (body : E -> E * Completion JsValue)
| NotCallable (v : JsValue).

Record DeferObservable : Type := { observableFactory : Callee }.

Record DeferSubscriber : Type := {
  destination : nat;
  factory : Callee;
  state : Lifecycle;
  children : list nat;
  journal : list Effect
}.

(** Everything outside the subscriber: the factory's closed-over state, how
    often a factory body has run, and how many inner subscriptions exist. *)
Record World : Type := {
  env : E;
  invocations : nat;
  allocated : nat
}.

(** The state a method of [DeferSubscriber] runs in: [this] and the rest. *)
Record Machine : Type := { world : World; self : DeferSubscriber }.

Definition on_self (f : DeferSubscriber -> DeferSubscriber) : Js Machine unit :=
  fun m => ({| world := world m; self := f (self m) |}, Normal tt).

Definition record (es : list Effect) (s : DeferSubscriber) : DeferSubscriber :=
  {| destination := destination s; factory := factory s; state := state s;
     children := children s; journal := journal s ++ es |}.

Definition received (s : DeferSubscriber) : list Signal := downstream (journal s).

Definition isLive (s : DeferSubscriber) : bool :=
  match state s with Live => true | Terminated _ => false end.

(** *** Base classes *)

(** Modelled from the spec: the constructor of the base class [Subscriber]
    (reached through [super(destination)]), which is not in the source
    tree.  A consumer starts in the initial state, bound to its downstream
    consumer, owning no child resource. *)
Definition Subscriber_new (dest : nat) (f : Callee) : DeferSubscriber :=
  {| destination := dest; factory := f; state := Live; children := [];
     journal := [] |}.

(** Modelled from the spec: teardown of the base class [Subscription], which
    is not in the source tree.  Releasing releases every owned child
    resource; a terminated consumer stays as it is, so that a second release
    does nothing. *)
Definition terminate (how : Ending) (s : DeferSubscriber) : DeferSubscriber :=
  match state s with
  | Terminated _ => s
  | Live =>
      {| destination := destination s; factory := factory s;
         state := Terminated how; children := [];
         journal := journal s ++ map Release (children s) |}
  end.

(** Modelled from the spec: [unsubscribe] of the base class [Subscription],
    which is not in the source tree.  Cancellation from downstream is a
    release that ends in the cancelled state. *)
Definition unsubscribe : DeferSubscriber -> DeferSubscriber := terminate Cancelled.

(** Modelled from the spec: [add] of the base class [Subscription], which is
    not in the source tree.  The resource becomes an owned child; a
    terminated consumer acquires nothing, so a resource handed to it is
    released on the spot. *)
Definition add (child : nat) (s : DeferSubscriber) : DeferSubscriber :=
  match state s with
  | Live =>
      {| destination := destination s; factory := factory s; state := Live;
         children := children s ++ [child];
         journal := journal s ++ [Add child] |}
  | Terminated _ => record [Add child; Release child] s
  end.

(** Modelled from the spec: [notifyNext] of the base class [OuterSubscriber],
    which is not in the source tree.  A value of the inner producer is
    forwarded unchanged; a terminated consumer forwards nothing. *)
Definition notifyNext (v : Prim) (s : DeferSubscriber) : DeferSubscriber :=
  if isLive s then record [Forward (Next v)] s else s.

(** Modelled from the spec: [notifyError] of the base class [OuterSubscriber],
    which is not in the source tree.  An error of the inner producer is
    forwarded as the terminal error and triggers teardown. *)
Definition notifyError (e : Prim) (s : DeferSubscriber) : DeferSubscriber :=
  if isLive s then terminate Errored (record [Forward (Error e)] s) else s.

(** Modelled from the spec: [notifyComplete] of the base class
    [OuterSubscriber], which is not in the source tree.  A completion of the
    inner producer is forwarded as the terminal completion and triggers
    teardown. *)
Definition notifyComplete (s : DeferSubscriber) : DeferSubscriber :=
  if isLive s then terminate Completed (record [Forward Complete] s) else s.

(** Modelled from the spec: [_error] of the base class [Subscriber], which
    is not in the source tree.  The error goes downstream as the terminal
    error signal and the consumer is torn down. *)
Definition _error (e : Prim) (s : DeferSubscriber) : DeferSubscriber :=
  if isLive s then terminate Errored (record [Forward (Error e)] s) else s.

(** Modelled from the spec: the routing of one event to the subscriber, done
    by the inner subscriber and by downstream, neither in the source tree.  A
    signal of the inner producer goes to the forwarding method of its kind, a
    cancellation to [unsubscribe]. *)
Definition deliver (s : DeferSubscriber) (ev : Event) : DeferSubscriber :=
  match ev with
  | Inner (Next v) => notifyNext v s
  | Inner (Error e) => notifyError e s
  | Inner Complete => notifyComplete s
  | Unsubscribe => unsubscribe s
  end.

(** Events reach a subscriber one at a time, in order. *)
Definition run (evs : list Event) (s : DeferSubscriber) : DeferSubscriber :=
  fold_left deliver evs s.

(** *** The normalization collaborator *)

(** Modelled from the spec: the conversion inside [subscribeToResult], which
    is not in the source tree.  A producer passes through unchanged, a
    deferred value becomes a producer that emits once and completes (after
    the subscribe call has returned), a sequence becomes a producer that
    emits each element and completes, anything else is not recognised. *)
Definition normalize (input : JsValue) : Normalized :=
  match input with
  | ObservableOf src => Conformant src
  | PromiseLike _ => Conformant {| onSubscribe := [] |}
  | ArrayLike items =>
      Conformant {| onSubscribe := map (fun x => Inner (Next x)) items ++ [Inner Complete] |}
  | Primitive _ =>
      Unrecognized (TypeError "You provided an invalid object where a stream was expected.")
  end.

(** What a deferred value pushes once it resolves. *)
Definition settlement (input : JsValue) : list Event :=
  match input with
  | PromiseLike v => [Inner (Next v); Inner Complete]
  | _ => []
  end.

Definition allocate (w : World) : World :=
  {| env := env w; invocations := invocations w; allocated := S (allocated w) |}.

(** Modelled from the spec: [subscribeToResult], which is not in the source
    tree.  It normalizes [result], subscribes the consumer to the producer
    (whose synchronous signals reach the consumer before the call returns)
    and returns the new inner subscription.  An unrecognised input fails,
    synchronously or as an error signal, depending on [mode]. *)
Definition subscribeToResult (mode : FailureMode) (result : JsValue) : Js Machine nat :=
  fun m =>
    let this := record [Normalize result] (self m) in
    let inner := allocated (world m) in
    match normalize result with
    | Conformant p =>
        ({| world := allocate (world m); self := run (onSubscribe p) this |},
         Normal inner)
    | Unrecognized why =>
        match mode with
        | FailsSynchronously => ({| world := world m; self := this |}, Abrupt why)
        | FailsBySignal =>
            ({| world := allocate (world m); self := notifyError why this |},
             Normal inner)
        end
    end.

(** *** DeferSubscriber *)

(** The world after one more run of a factory body. *)
Definition invoked (w : World) (e' : E) : World :=
  {| env := e'; invocations := S (invocations w); allocated := allocated w |}.

(** [this.factory()] *)
Definition invokeFactory : Js Machine JsValue :=
  fun m =>
    match factory (self m) with
    | Function body =>
        let (e', outcome) := body (env (world m)) in
        ({| world := invoked (world m) e'; self := record [Invoke] (self m) |},
         outcome)
    | NotCallable _ => throw (TypeError "this.factory is not a function") m
    end.

Definition _callFactory (mode : FailureMode) : Js Machine unit :=
  let* result := invokeFactory in
  if ToBoolean result
  then let* inner := subscribeToResult mode result in on_self (add inner)
  else ret tt.

Definition tryDefer (mode : FailureMode) : Js Machine unit :=
  try_catch (_callFactory mode) (fun err => on_self (_error err)).

Definition DeferSubscriber_new (mode : FailureMode) (dest : nat) (f : Callee)
  : Js World DeferSubscriber :=
  fun w =>
    match tryDefer mode {| world := w; self := Subscriber_new dest f |} with
    | (m, Normal _) => (world m, Normal (self m))
    | (m, Abrupt e) => (world m, Abrupt e)
    end.

(** *** DeferObservable *)

Definition DeferObservable_new (observableFactory : Callee) : Js World DeferObservable :=
  ret {| observableFactory := observableFactory |}.

Definition create (observableFactory : Callee) : Js World DeferObservable :=
  DeferObservable_new observableFactory.

Definition _subscribe (mode : FailureMode) (this : DeferObservable) (subscriber : nat)
  : Js World DeferSubscriber :=
  DeferSubscriber_new mode subscriber (observableFactory this).

End Model.

Arguments Callee E : clear implicits.
Arguments DeferObservable E : clear implicits.
Arguments DeferSubscriber E : clear implicits.
Arguments World E : clear implicits.
Arguments Machine E : clear implicits.

(** ** Invariants *)

Section Predicates.
Context {E : Type}.
Implicit Types (s : DeferSubscriber E) (ev : Event).

(** What [deliver] appends to the journal. *)
Definition reaction s ev : list Effect :=
  if isLive s then
    match ev with
    | Inner (Next v) => [Forward (Next v)]
    | Inner sig => Forward sig :: map Release (children s)
    | Unsubscribe => map Release (children s)
    end
  else [].

(** Downstream has seen values only while the subscriber is live, nothing
    follows a terminal signal, and a terminated subscriber owns nothing. *)
Definition Sound s : Prop :=
  terminalLast (received s) = true /\
  (isLive s = true -> valuesOnly (received s) = true) /\
  (isLive s = false -> children s = []).

(** Every resource handed to [add] is either still owned or has been
    released once. *)
Definition Balanced s : Prop :=
  forall h,
    tally (isAdd h) (journal s) =
    tally (isRelease h) (journal s) + occurrences h (children s).

(** Journal entries that are neither a forward nor resource bookkeeping. *)
Definition silent (es : list Effect) : Prop :=
  downstream es = [] /\ tally anyAdd es = 0 /\ tally anyRelease es = 0.

(** A subscriber as [_subscribe] can return it. *)
Definition WellFormed s : Prop :=
  Sound s /\ Balanced s /\ tally anyAdd (journal s) <= 1.

(** The subscriber keeps the consumer and the factory it was built with. *)
Definition Bound (dest : nat) (f : Callee E) s : Prop :=
  destination s = dest /\ factory s = f.

End Predicates.

(** ** Several subscribers side by side *)

Section Objects.
Context {E : Type}.

(** The subscriber objects created so far; [new] appends, and the address
    of an object is its position. *)
Record Store : Type := {
  ambient : World E;
  objects : list (DeferSubscriber E)
}.

(** Modelled from the spec: [subscribe] of the base class [Observable],
    which is not in the source tree.  Every call goes to [_subscribe] and
    returns the resource it built. *)
Definition subscribe (mode : FailureMode) (this : DeferObservable E) (consumer : nat)
  : Js Store nat :=
  fun st =>
    match _subscribe mode this consumer (ambient st) with
    | (w, Normal s) =>
        ({| ambient := w; objects := objects st ++ [s] |},
         Normal (length (objects st)))
    | (w, Abrupt e) => ({| ambient := w; objects := objects st |}, Abrupt e)
    end.

(** One event reaches the subscriber at address [ref]. *)
Definition signal (ref : nat) (st : Store) (ev : Event) : Store :=
  match objects st !! ref with
  | Some s => {| ambient := ambient st; objects := <[ref := deliver s ev]> (objects st) |}
  | None => st
  end.

Definition signals (ref : nat) (evs : list Event) (st : Store) : Store :=
  fold_left (signal ref) evs st.

(** One producer subscribed by several consumers, one after the other; the
    addresses of the new subscribers are returned in that order. *)
Fixpoint subscribeAll (mode : FailureMode) (this : DeferObservable E)
    (consumers : list nat) : Js Store (list nat) :=
  match consumers with
  | [] => ret []
  | consumer :: rest =>
      let* ref := subscribe mode this consumer in
      let* refs := subscribeAll mode this rest in
      ret (ref :: refs)
  end.

End Objects.

Arguments Store E : clear implicits.

(** ** Subscribing without the delegation layer *)

(** What a consumer observes when it subscribes to a producer directly,
    following the specification's producer contract: the values in the order
    they are pushed, then at most one terminal signal, and nothing once the
    subscription has terminated or has been cancelled. *)
Fixpoint observedDirectly (evs : list Event) : list Signal :=
  match evs with
  | [] => []
  | Inner (Next v) :: rest => Next v :: observedDirectly rest
  | Inner (Error e) :: _ => [Error e]
  | Inner Complete :: _ => [Complete]
  | Unsubscribe :: _ => []
  end.

Definition subscribeDirectly (p : Producer) (later : list Event) : list Signal :=
  observedDirectly (onSubscribe p ++ later).

(** An event after which the subscription is still running. *)
Definition keepsLive (ev : Event) : bool :=
  match ev with
  | Inner (Next _) => true
  | _ => false
  end.

Definition quiet (evs : list Event) : bool := forallb keepsLive evs.

Definition isCancel (ev : Event) : bool :=
  match ev with
  | Unsubscribe => true
  | Inner _ => false
  end.

(** ** Sample factories *)

Definition boom : Prim := Str "boom".

(** Returns a producer emitting 1, 2, 3 and completing. *)
Definition oneTwoThree : Callee unit :=
  Function (fun e =>
    (e, Normal (ObservableOf
      {| onSubscribe := [Inner (Next (Number 1)); Inner (Next (Number 2));
                         Inner (Next (Number 3)); Inner Complete] |}))).

Definition throwsBoom : Callee unit :=
  Function (fun e => (e, Abrupt boom)).

Definition declines : Callee unit :=
  Function (fun e => (e, Normal (Primitive Undefined))).

Definition returnsZero : Callee unit :=
  Function (fun e => (e, Normal (Primitive (Number 0)))).

Definition promises42 : Callee unit :=
  Function (fun e => (e, Normal (PromiseLike (Number 42)))).

Definition returns7 : Callee unit :=
  Function (fun e => (e, Normal (Primitive (Number 7)))).

(** Increments a counter it closes over and returns a producer of the new
    count. *)
Definition counting : Callee Z :=
  Function (fun n =>
    ((n + 1)%Z,
     Normal (ObservableOf
       {| onSubscribe := [Inner (Next (Number (n + 1))); Inner Complete] |}))).

(** Emits a value, then never terminates on its own. *)
Definition ticking : Callee unit :=
  Function (fun e =>
    (e, Normal (ObservableOf {| onSubscribe := [Inner (Next (Number 0))] |}))).

Definition start {E} (e : E) : World E :=
  {| env := e; invocations := 0; allocated := 0 |}.

(** What the truthiness test and normalization make of a factory's outcome:
    whether the subscriber is still live when [_subscribe] returns. *)
Definition staysLive (outcome : Completion JsValue) : bool :=
  match outcome with
  | Abrupt _ => false
  | Normal result =>
      if ToBoolean result then
        match normalize result with
        | Conformant p => quiet (onSubscribe p)
        | Unrecognized _ => false
        end
      else true
  end.

(** How the journal of a new subscriber shows what the factory body did: a
    thrown value is the error that was forwarded, a truthy result is the value
    that was handed to [subscribeToResult] right after the invocation, and a
    falsy result leaves the invocation alone. *)
Definition Reflects {E : Type} (outcome : Completion JsValue) (s : DeferSubscriber E)
  : Prop :=
  match outcome with
  | Abrupt err => journal s = [Invoke; Forward (Error err)]
  | Normal result =>
      if ToBoolean result
      then exists rest, journal s = Invoke :: Normalize result :: rest
      else journal s = [Invoke]
  end.

(** The outcomes of [n] runs of a factory body in a row, each run starting
    from the closed-over state that the run before it left. *)
Fixpoint successiveOutcomes {E : Type} (body : E -> E * Completion JsValue)
    (n : nat) (e : E) : list (Completion JsValue) :=
  match n with
  | 0 => []
  | S k => snd (body e) :: successiveOutcomes body k (fst (body e))
  end.

(** The closed-over state after [n] runs of a factory body in a row. *)
Fixpoint stateAfter {E : Type} (body : E -> E * Completion JsValue)
    (n : nat) (e : E) : E :=
  match n with
  | 0 => e
  | S k => stateAfter body k (fst (body e))
  end.

(** Whether [subscribeToResult] is reached. *)
Definition reachesNormalization (outcome : Completion JsValue) : bool :=
  match outcome with
  | Abrupt _ => false
  | Normal result => ToBoolean result
  end.

(** * Properties *)

(** ** Logs *)

Lemma downstream_app (j1 j2 : list Effect) :
  downstream (j1 ++ j2) = downstream j1 ++ downstream j2.
Proof.
  induction j1 as [|e j1 IH]; [reflexivity|].
  destruct e; simpl; rewrite IH; reflexivity.
Qed.

Lemma downstream_releases (l : list nat) : downstream (map Release l) = [].
Proof. induction l; simpl; auto. Qed.

Lemma tally_app (pick : Effect -> bool) (j1 j2 : list Effect) :
  tally pick (j1 ++ j2) = tally pick j1 + tally pick j2.
Proof. induction j1 as [|e j1 IH]; simpl; [reflexivity | rewrite IH; lia]. Qed.

Lemma occurrences_app (h : nat) (l1 l2 : list nat) :
  occurrences h (l1 ++ l2) = occurrences h l1 + occurrences h l2.
Proof. induction l1 as [|k l1 IH]; simpl; [reflexivity | rewrite IH; lia]. Qed.

Lemma tally_release_releases (h : nat) (l : list nat) :
  tally (isRelease h) (map Release l) = occurrences h l.
Proof. induction l as [|k l IH]; simpl; [reflexivity | rewrite IH; reflexivity]. Qed.

Lemma tally_add_releases (h : nat) (l : list nat) :
  tally (isAdd h) (map Release l) = 0.
Proof. induction l; simpl; auto. Qed.

Lemma tally_anyAdd_releases (l : list nat) : tally anyAdd (map Release l) = 0.
Proof. induction l; simpl; auto. Qed.

Lemma tally_anyRelease_releases (l : list nat) :
  tally anyRelease (map Release l) = length l.
Proof. induction l; simpl; auto. Qed.

Lemma tally_isAdd_le_anyAdd (h : nat) (j : list Effect) :
  tally (isAdd h) j <= tally anyAdd j.
Proof.
  induction j as [|e j IH]; simpl; [lia|].
  destruct e; simpl; try lia. destruct (Nat.eqb h child); lia.
Qed.

Lemma valuesOnly_snoc (l : list Signal) (sig : Signal) :
  valuesOnly l = true -> valuesOnly (l ++ [sig]) = negb (isTerminal sig).
Proof.
  induction l as [|x l IH]; simpl; intros H.
  - apply andb_true_r.
  - apply andb_prop in H as [Hx Hl]. rewrite Hx, (IH Hl). reflexivity.
Qed.

Lemma valuesOnly_terminalLast (l : list Signal) :
  valuesOnly l = true -> terminalLast l = true.
Proof.
  induction l as [|x l IH]; simpl; intros H; [reflexivity|].
  apply andb_prop in H as [Hx Hl].
  destruct (isTerminal x); [discriminate | auto].
Qed.

Lemma terminalLast_snoc (l : list Signal) (sig : Signal) :
  valuesOnly l = true -> terminalLast (l ++ [sig]) = true.
Proof.
  induction l as [|x l IH]; simpl; intros H.
  - destruct (isTerminal sig); reflexivity.
  - apply andb_prop in H as [Hx Hl].
    destruct (isTerminal x); [discriminate | auto].
Qed.

Lemma valuesOnly_terminals (l : list Signal) :
  valuesOnly l = true -> terminals l = 0.
Proof.
  induction l as [|x l IH]; simpl; intros H; [reflexivity|].
  apply andb_prop in H as [Hx Hl].
  destruct (isTerminal x); [discriminate | auto].
Qed.

Lemma terminalLast_terminals (l : list Signal) :
  terminalLast l = true -> terminals l <= 1.
Proof.
  induction l as [|x l IH]; simpl; intros H; [lia|].
  destruct (isTerminal x).
  - destruct l; [simpl; lia | discriminate].
  - auto.
Qed.

Lemma terminalLast_nothing_after (l pre post : list Signal) (sig : Signal) :
  terminalLast l = true -> l = pre ++ sig :: post -> isTerminal sig = true ->
  post = [].
Proof.
  intros H -> Hsig. induction pre as [|x pre IH]; simpl in H.
  - rewrite Hsig in H. destruct post; [reflexivity | discriminate].
  - destruct (isTerminal x).
    + destruct pre; discriminate.
    + auto.
Qed.

Lemma terminals_valuesOnly (l : list Signal) :
  terminals l = 0 -> valuesOnly l = true.
Proof.
  induction l as [|x l IH]; simpl; intros H; [reflexivity|].
  destruct (isTerminal x); [lia | simpl; auto].
Qed.

(** ** One subscriber *)

Section Lifecycle.
Context {E : Type}.
Implicit Types (s : DeferSubscriber E) (ev : Event) (evs : list Event).

Lemma deliver_journal s ev : journal (deliver s ev) = journal s ++ reaction s ev.
Proof.
  destruct s as [d f st ch j]; unfold reaction, isLive.
  destruct st; destruct ev as [[v|e|]|]; simpl;
    rewrite ?app_nil_r, <- ?app_assoc; reflexivity.
Qed.

Lemma deliver_isLive s ev : isLive (deliver s ev) = isLive s && keepsLive ev.
Proof.
  destruct s as [d f st ch j].
  destruct st; destruct ev as [[v|e|]|]; reflexivity.
Qed.

Lemma deliver_children s ev :
  children (deliver s ev) =
  if isLive s && negb (keepsLive ev) then [] else children s.
Proof.
  destruct s as [d f st ch j].
  destruct st; destruct ev as [[v|e|]|]; reflexivity.
Qed.

Lemma deliver_destination s ev : destination (deliver s ev) = destination s.
Proof.
  destruct s as [d f st ch j].
  destruct st; destruct ev as [[v|e|]|]; reflexivity.
Qed.

Lemma deliver_terminated s ev : isLive s = false -> deliver s ev = s.
Proof.
  destruct s as [d f st ch j].
  destruct st; destruct ev as [[v|e|]|]; simpl; intros H;
    try discriminate; reflexivity.
Qed.

Lemma run_cons s ev evs : run (ev :: evs) s = run evs (deliver s ev).
Proof. reflexivity. Qed.

Lemma run_app s evs1 evs2 : run (evs1 ++ evs2) s = run evs2 (run evs1 s).
Proof. unfold run. apply fold_left_app. Qed.

Lemma run_terminated s evs : isLive s = false -> run evs s = s.
Proof.
  induction evs as [|ev evs IH]; intros H; [reflexivity|].
  rewrite run_cons, deliver_terminated by assumption. auto.
Qed.

Lemma run_isLive s evs : isLive (run evs s) = isLive s && quiet evs.
Proof.
  revert s. induction evs as [|ev evs IH]; intros s.
  - simpl. rewrite andb_true_r. reflexivity.
  - rewrite run_cons, IH, deliver_isLive. simpl. rewrite andb_assoc. reflexivity.
Qed.

Lemma run_destination s evs : destination (run evs s) = destination s.
Proof.
  revert s. induction evs as [|ev evs IH]; intros s; [reflexivity|].
  rewrite run_cons, IH. apply deliver_destination.
Qed.

(** *** Forwarding follows the producer contract *)

Lemma reaction_downstream s ev :
  downstream (reaction s ev) =
  if isLive s then
    match ev with Inner sig => [sig] | Unsubscribe => [] end
  else [].
Proof.
  unfold reaction. destruct (isLive s); [|reflexivity].
  destruct ev as [[v|e|]|]; simpl; rewrite ?downstream_releases; reflexivity.
Qed.

Lemma run_received s evs :
  received (run evs s) =
  received s ++ (if isLive s then observedDirectly evs else []).
Proof.
  revert s. induction evs as [|ev evs IH]; intros s.
  - simpl. destruct (isLive s); rewrite app_nil_r; reflexivity.
  - rewrite run_cons, IH. unfold received at 1.
    rewrite deliver_journal, downstream_app, reaction_downstream, deliver_isLive.
    fold (received s). destruct (isLive s); simpl.
    + destruct ev as [[v|e|]|]; simpl; rewrite <- ?app_assoc; reflexivity.
    + rewrite !app_nil_r. reflexivity.
Qed.

Lemma observedDirectly_app evs1 evs2 :
  observedDirectly (evs1 ++ evs2) =
  observedDirectly evs1 ++ (if quiet evs1 then observedDirectly evs2 else []).
Proof.
  induction evs1 as [|ev evs1 IH]; [reflexivity|].
  destruct ev as [[v|e|]|]; simpl; try reflexivity.
  rewrite IH. reflexivity.
Qed.

Lemma observedDirectly_terminalLast evs : terminalLast (observedDirectly evs) = true.
Proof.
  induction evs as [|ev evs IH]; [reflexivity|].
  destruct ev as [[v|e|]|]; simpl; auto.
Qed.

Lemma observedDirectly_quiet evs :
  quiet evs = true -> valuesOnly (observedDirectly evs) = true.
Proof.
  induction evs as [|ev evs IH]; [reflexivity|].
  destruct ev as [[v|e|]|]; simpl; auto; discriminate.
Qed.

End Lifecycle.

(** ** Invariants of a subscriber *)

Section Invariants.
Context {E : Type}.
Implicit Types (s : DeferSubscriber E) (ev : Event) (evs : list Event).

Lemma Subscriber_new_Sound dest (f : Callee E) : Sound (Subscriber_new dest f).
Proof. repeat split; auto. Qed.

Lemma Subscriber_new_Balanced dest (f : Callee E) : Balanced (Subscriber_new dest f).
Proof. intros h. reflexivity. Qed.

Lemma deliver_Sound s ev : Sound s -> Sound (deliver s ev).
Proof.
  intros (Hlast & Hlive & Hdead).
  destruct (isLive s) eqn:L; [|rewrite deliver_terminated by assumption; repeat split; auto; congruence].
  specialize (Hlive eq_refl).
  unfold Sound, received. rewrite deliver_journal, downstream_app, reaction_downstream.
  rewrite deliver_isLive, deliver_children, L. fold (received s). simpl.
  destruct ev as [sig|]; simpl.
  - split; [|split].
    + apply terminalLast_snoc; assumption.
    + intros K. rewrite valuesOnly_snoc by assumption.
      destruct sig; simpl in *; congruence.
    + intros K. rewrite K. reflexivity.
  - rewrite app_nil_r. split; [|split]; auto.
Qed.

Lemma deliver_Balanced s ev : Balanced s -> Balanced (deliver s ev).
Proof.
  intros B h. rewrite deliver_journal, !tally_app, deliver_children, (B h).
  unfold reaction. destruct (isLive s); simpl; [|lia].
  destruct ev as [[v|e|]|]; simpl;
    rewrite ?tally_add_releases, ?tally_release_releases; lia.
Qed.

Lemma deliver_anyAdd s ev :
  tally anyAdd (journal (deliver s ev)) = tally anyAdd (journal s).
Proof.
  rewrite deliver_journal, tally_app. unfold reaction.
  destruct (isLive s); simpl; [|lia].
  destruct ev as [[v|e|]|]; simpl; rewrite ?tally_anyAdd_releases; lia.
Qed.

Lemma deliver_isInvoke s ev :
  tally isInvoke (journal (deliver s ev)) = tally isInvoke (journal s).
Proof.
  rewrite deliver_journal, tally_app. unfold reaction.
  destruct (isLive s); simpl; [|lia].
  assert (R : forall l, tally isInvoke (map Release l) = 0)
    by (induction l; simpl; auto).
  destruct ev as [[v|e|]|]; simpl; rewrite ?R; lia.
Qed.

Lemma run_Sound s evs : Sound s -> Sound (run evs s).
Proof.
  revert s. induction evs as [|ev evs IH]; intros s H; [assumption|].
  rewrite run_cons. apply IH, deliver_Sound, H.
Qed.

Lemma run_Balanced s evs : Balanced s -> Balanced (run evs s).
Proof.
  revert s. induction evs as [|ev evs IH]; intros s H; [assumption|].
  rewrite run_cons. apply IH, deliver_Balanced, H.
Qed.

Lemma run_anyAdd s evs : tally anyAdd (journal (run evs s)) = tally anyAdd (journal s).
Proof.
  revert s. induction evs as [|ev evs IH]; intros s; [reflexivity|].
  rewrite run_cons, IH. apply deliver_anyAdd.
Qed.

Lemma run_isInvoke s evs :
  tally isInvoke (journal (run evs s)) = tally isInvoke (journal s).
Proof.
  revert s. induction evs as [|ev evs IH]; intros s; [reflexivity|].
  rewrite run_cons, IH. apply deliver_isInvoke.
Qed.

Lemma _error_deliver (e : Prim) s : _error e s = deliver s (Inner (Error e)).
Proof. reflexivity. Qed.

Lemma notifyError_deliver (e : Prim) s : notifyError e s = deliver s (Inner (Error e)).
Proof. reflexivity. Qed.

Lemma tally_isRelease_le_anyRelease (h : nat) (j : list Effect) :
  tally (isRelease h) j <= tally anyRelease j.
Proof.
  induction j as [|e j IH]; simpl; [lia|].
  destruct e; simpl; try lia. destruct (Nat.eqb h child); lia.
Qed.

Lemma record_Sound es s : silent es -> Sound s -> Sound (record es s).
Proof.
  intros (Hd & _) (Hlast & Hlive & Hdead). unfold Sound, received. simpl.
  rewrite downstream_app, Hd, app_nil_r. repeat split; auto.
Qed.

Lemma record_Balanced es s : silent es -> Balanced s -> Balanced (record es s).
Proof.
  intros (_ & Ha & Hr) B h. simpl. rewrite !tally_app, (B h).
  pose proof (tally_isAdd_le_anyAdd h es).
  pose proof (tally_isRelease_le_anyRelease h es). lia.
Qed.

Lemma record_anyAdd es s :
  silent es -> tally anyAdd (journal (record es s)) = tally anyAdd (journal s).
Proof. intros (_ & Ha & _). simpl. rewrite tally_app. lia. Qed.

Lemma add_journal child s :
  journal (add child s) =
  journal s ++ (if isLive s then [Add child] else [Add child; Release child]).
Proof. destruct s as [d f st ch j]; destruct st; reflexivity. Qed.

Lemma add_isLive child s : isLive (add child s) = isLive s.
Proof. destruct s as [d f st ch j]; destruct st; reflexivity. Qed.

Lemma add_children child s :
  children (add child s) =
  if isLive s then children s ++ [child] else children s.
Proof. destruct s as [d f st ch j]; destruct st; reflexivity. Qed.

Lemma add_received child s : received (add child s) = received s.
Proof.
  unfold received. rewrite add_journal, downstream_app.
  destruct (isLive s); simpl; apply app_nil_r.
Qed.

Lemma add_Sound child s : Sound s -> Sound (add child s).
Proof.
  intros (Hlast & Hlive & Hdead). unfold Sound.
  rewrite add_received, add_isLive, add_children. repeat split; auto.
  intros K. rewrite K. auto.
Qed.

Lemma add_Balanced child s : Balanced s -> Balanced (add child s).
Proof.
  intros B h. rewrite add_journal, add_children, !tally_app, (B h).
  destruct (isLive s); simpl; rewrite ?occurrences_app; simpl;
    destruct (Nat.eqb h child); lia.
Qed.

Lemma add_anyAdd child s :
  tally anyAdd (journal (add child s)) = S (tally anyAdd (journal s)).
Proof. rewrite add_journal, tally_app. destruct (isLive s); simpl; lia. Qed.

Lemma silent_Invoke : silent [Invoke].
Proof. repeat split. Qed.

Lemma silent_Normalize v : silent [Normalize v].
Proof. repeat split. Qed.

End Invariants.

(** ** What one subscription does, case by case *)

Section Subscription.
Context {E : Type}.
Implicit Types (w : World E) (this : DeferObservable E) (s : DeferSubscriber E).

Ltac enter :=
  unfold _subscribe, DeferSubscriber_new, tryDefer, try_catch, _callFactory,
    bind, invokeFactory, subscribeToResult, on_self, ret, throw; simpl.

Lemma subscribe_not_callable mode this dest w v :
  observableFactory this = NotCallable v ->
  _subscribe mode this dest w =
  (w, Normal (_error (TypeError "this.factory is not a function")
                (Subscriber_new dest (NotCallable v)))).
Proof. intros F. enter. rewrite F. reflexivity. Qed.

Lemma subscribe_throws mode this dest w body e' err :
  observableFactory this = Function body ->
  body (env w) = (e', Abrupt err) ->
  _subscribe mode this dest w =
  (invoked w e',
   Normal (_error err (record [Invoke] (Subscriber_new dest (Function body))))).
Proof. intros F B. enter. rewrite F, B. reflexivity. Qed.

Lemma subscribe_declined mode this dest w body e' result :
  observableFactory this = Function body ->
  body (env w) = (e', Normal result) ->
  ToBoolean result = false ->
  _subscribe mode this dest w =
  (invoked w e', Normal (record [Invoke] (Subscriber_new dest (Function body)))).
Proof. intros F B T. enter. rewrite F, B, T. reflexivity. Qed.

Lemma subscribe_conformant mode this dest w body e' result p :
  observableFactory this = Function body ->
  body (env w) = (e', Normal result) ->
  ToBoolean result = true ->
  normalize result = Conformant p ->
  _subscribe mode this dest w =
  (allocate (invoked w e'),
   Normal (add (allocated w)
             (run (onSubscribe p)
                (record [Normalize result]
                   (record [Invoke] (Subscriber_new dest (Function body))))))).
Proof. intros F B T N. enter. rewrite F, B, T, N. reflexivity. Qed.

Lemma subscribe_unrecognized_throw this dest w body e' result why :
  observableFactory this = Function body ->
  body (env w) = (e', Normal result) ->
  ToBoolean result = true ->
  normalize result = Unrecognized why ->
  _subscribe FailsSynchronously this dest w =
  (invoked w e',
   Normal (_error why
             (record [Normalize result]
                (record [Invoke] (Subscriber_new dest (Function body)))))).
Proof. intros F B T N. enter. rewrite F, B, T, N. reflexivity. Qed.

Lemma subscribe_unrecognized_signal this dest w body e' result why :
  observableFactory this = Function body ->
  body (env w) = (e', Normal result) ->
  ToBoolean result = true ->
  normalize result = Unrecognized why ->
  _subscribe FailsBySignal this dest w =
  (allocate (invoked w e'),
   Normal (add (allocated w)
             (notifyError why
                (record [Normalize result]
                   (record [Invoke] (Subscriber_new dest (Function body))))))).
Proof. intros F B T N. enter. rewrite F, B, T, N. reflexivity. Qed.

Lemma run_WellFormed s evs : WellFormed s -> WellFormed (run evs s).
Proof.
  intros (S1 & B & A). split; [|split].
  - apply run_Sound, S1.
  - apply run_Balanced, B.
  - rewrite run_anyAdd. exact A.
Qed.

Lemma started_WellFormed dest (f : Callee E) es :
  silent es -> tally anyAdd (journal (record es (Subscriber_new dest f))) = 0 /\
               Sound (record es (Subscriber_new dest f)) /\
               Balanced (record es (Subscriber_new dest f)).
Proof.
  intros H. split; [|split].
  - rewrite record_anyAdd by assumption. reflexivity.
  - apply record_Sound; [assumption | apply Subscriber_new_Sound].
  - apply record_Balanced; [assumption | apply Subscriber_new_Balanced].
Qed.

Lemma deliver_Bound dest f s ev : Bound dest f s -> Bound dest f (deliver s ev).
Proof.
  destruct s as [d g st ch j].
  destruct st; destruct ev as [[v|e|]|]; exact (fun H => H).
Qed.

Lemma run_Bound dest f s evs : Bound dest f s -> Bound dest f (run evs s).
Proof.
  revert s. induction evs as [|ev evs IH]; intros s H; [assumption|].
  rewrite run_cons. apply IH, deliver_Bound, H.
Qed.

Lemma add_Bound dest f s child : Bound dest f s -> Bound dest f (add child s).
Proof. destruct s as [d g st ch j]; destruct st; exact (fun H => H). Qed.

Lemma record_Bound dest f s es : Bound dest f s -> Bound dest f (record es s).
Proof. exact (fun H => H). Qed.

Lemma started dest (f : Callee E) :
  WellFormed (record [Invoke] (Subscriber_new dest f)) /\
  tally anyAdd (journal (record [Invoke] (Subscriber_new dest f))) = 0.
Proof.
  destruct (started_WellFormed dest f [Invoke] silent_Invoke) as (A & S1 & B).
  repeat split; try assumption; try apply S1. rewrite A. lia.
Qed.

Lemma deliver_WellFormed s ev : WellFormed s -> WellFormed (deliver s ev).
Proof. apply (run_WellFormed s [ev]). Qed.

Lemma record_WellFormed s es : silent es -> WellFormed s -> WellFormed (record es s).
Proof.
  intros H (S1 & B & A). split; [|split].
  - apply record_Sound; assumption.
  - apply record_Balanced; assumption.
  - rewrite record_anyAdd; assumption.
Qed.

Lemma add_WellFormed s child :
  tally anyAdd (journal s) = 0 -> WellFormed s -> WellFormed (add child s).
Proof.
  intros Z (S1 & B & A). split; [|split].
  - apply add_Sound, S1.
  - apply add_Balanced, B.
  - rewrite add_anyAdd. lia.
Qed.

(** [_subscribe] always returns, and what it returns is well formed and bound
    to the consumer and the factory it was given. *)
Lemma subscribe_returns mode this dest w :
  exists w' s,
    _subscribe mode this dest w = (w', Normal s) /\
    WellFormed s /\ Bound dest (observableFactory this) s.
Proof.
  destruct (observableFactory this) as [body|v] eqn:F.
  - destruct (started dest (Function body)) as (W0 & A0).
    assert (B0 : Bound dest (Function body)
                   (record [Invoke] (Subscriber_new dest (Function body))))
      by (split; reflexivity).
    destruct (body (env w)) as [e' [result|err]] eqn:B.
    + destruct (ToBoolean result) eqn:T.
      * assert (W1 := record_WellFormed _ _ (silent_Normalize result) W0).
        assert (A1 := record_anyAdd [Normalize result]
                        (record [Invoke] (Subscriber_new dest (Function body)))
                        (silent_Normalize result)).
        rewrite A0 in A1.
        destruct (normalize result) as [p|why] eqn:N.
        -- eexists _, _. split; [eapply subscribe_conformant; eauto|]. split.
           ++ apply add_WellFormed; [rewrite run_anyAdd; exact A1|].
              apply run_WellFormed, W1.
           ++ apply add_Bound, run_Bound, B0.
        -- destruct mode.
           ++ eexists _, _. split; [eapply subscribe_unrecognized_throw; eauto|].
              rewrite _error_deliver.
              split; [apply deliver_WellFormed, W1 | apply deliver_Bound, B0].
           ++ eexists _, _. split; [eapply subscribe_unrecognized_signal; eauto|].
              rewrite notifyError_deliver. split.
              ** apply add_WellFormed; [|apply deliver_WellFormed, W1].
                 rewrite deliver_anyAdd. exact A1.
              ** apply add_Bound, deliver_Bound, B0.
      * eexists _, _. split; [eapply subscribe_declined; eauto|]. split; assumption.
    + eexists _, _. split; [eapply subscribe_throws; eauto|].
      rewrite _error_deliver.
      split; [apply deliver_WellFormed, W0 | apply deliver_Bound, B0].
  - eexists _, _. split; [eapply subscribe_not_callable; eauto|].
    rewrite _error_deliver. split.
    + apply deliver_WellFormed. split; [|split].
      * apply Subscriber_new_Sound.
      * apply Subscriber_new_Balanced.
      * simpl. lia.
    + apply deliver_Bound. split; reflexivity.
Qed.

End Subscription.

(** ** A subscription to a producer that holds a function *)

Section Invocation.
Context {E : Type}.
Implicit Types (w : World E) (s : DeferSubscriber E) (body : E -> E * Completion JsValue).

Lemma add_isInvoke child s :
  tally isInvoke (journal (add child s)) = tally isInvoke (journal s).
Proof. rewrite add_journal, tally_app. destruct (isLive s); simpl; lia. Qed.

Lemma terminated_is_final s later : isLive s = false -> run later s = s.
Proof. apply run_terminated. Qed.

(** The factory body runs once: the counter of the world goes up by one, the
    closed-over state is the one the body left, and the journal of the new
    subscriber records one invocation. *)
Lemma subscribe_function mode body dest w :
  exists w' s,
    _subscribe mode {| observableFactory := Function body |} dest w = (w', Normal s) /\
    invocations w' = S (invocations w) /\
    env w' = fst (body (env w)) /\
    tally isInvoke (journal s) = 1 /\
    WellFormed s /\ Bound dest (Function body) s.
Proof.
  destruct (subscribe_returns mode {| observableFactory := Function body |} dest w)
    as (w' & s & Eq & W & B).
  exists w', s. split; [exact Eq|].
  assert (F : observableFactory {| observableFactory := Function body |} = Function body)
    by reflexivity.
  destruct (body (env w)) as [e' [result|err]] eqn:Hb.
  - destruct (ToBoolean result) eqn:T.
    + destruct (normalize result) as [p|why] eqn:N.
      * rewrite (subscribe_conformant mode _ dest w body e' result p F Hb T N) in Eq.
        injection Eq as <- <-. repeat split; try apply W; try apply B.
        rewrite add_isInvoke, run_isInvoke. reflexivity.
      * destruct mode.
        -- rewrite (subscribe_unrecognized_throw _ dest w body e' result why F Hb T N) in Eq.
           injection Eq as <- <-. repeat split; try apply W; try apply B.
        -- rewrite (subscribe_unrecognized_signal _ dest w body e' result why F Hb T N) in Eq.
           injection Eq as <- <-. repeat split; try apply W; try apply B.
    + rewrite (subscribe_declined mode _ dest w body e' result F Hb T) in Eq.
      injection Eq as <- <-. repeat split; try apply W; try apply B.
  - rewrite (subscribe_throws mode _ dest w body e' err F Hb) in Eq.
    injection Eq as <- <-. repeat split; try apply W; try apply B.
Qed.

End Invocation.

(** ** The claims *)

(** C3.  When the factory throws, the subscription is returned with the thrown
    value forwarded downstream as the one terminal error; no inner
    subscription was created and no child is owned; whatever happens later,
    downstream has received that error and nothing else. *)
Theorem C3_factory_throws {E : Type} (mode : FailureMode)
    (body : E -> E * Completion JsValue) (dest : nat) (w : World E) (e' : E) (err : Prim) :
  body (env w) = (e', Abrupt err) ->
  exists w' s,
    _subscribe mode {| observableFactory := Function body |} dest w = (w', Normal s) /\
    journal s = [Invoke; Forward (Error err)] /\
    children s = [] /\
    allocated w' = allocated w /\
    forall later,
      received (run later s) = [Error err] /\
      children (run later s) = [] /\
      tally anyAdd (journal (run later s)) = 0.
Proof.
  intros Hb. eexists _, _. split.
  - eapply subscribe_throws; [reflexivity | exact Hb].
  - split; [reflexivity|]. split; [reflexivity|]. split; [reflexivity|].
    intros later. rewrite run_terminated by reflexivity. repeat split.
Qed.

Lemma C3_factory_throws_witness :
  exists w' s,
    _subscribe FailsBySignal {| observableFactory := throwsBoom |} 0 (start tt)
      = (w', Normal s) /\
    journal s = [Invoke; Forward (Error boom)] /\
    children s = [] /\
    allocated w' = 0 /\
    forall later,
      received (run later s) = [Error boom] /\
      children (run later s) = [] /\
      tally anyAdd (journal (run later s)) = 0.
Proof.
  apply (C3_factory_throws FailsBySignal (fun e => (e, Abrupt boom)) 0 (start tt) tt boom).
  reflexivity.
Defined.

(** C4.  When the factory returns a falsy value (numeric zero is one), the
    subscription is returned without any normalization, without an inner
    subscription and without a child; the subscriber stays live, and through
    any number of cancellations, the only events such a subscription can meet,
    downstream receives no call at all. *)
Theorem C4_falsy_result_is_no_source {E : Type} (mode : FailureMode)
    (body : E -> E * Completion JsValue) (dest : nat) (w : World E) (e' : E)
    (result : JsValue) :
  body (env w) = (e', Normal result) ->
  ToBoolean result = false ->
  ToBoolean (Primitive (Number 0)) = false /\
  exists w' s,
    _subscribe mode {| observableFactory := Function body |} dest w = (w', Normal s) /\
    journal s = [Invoke] /\
    tally isNormalize (journal s) = 0 /\
    allocated w' = allocated w /\
    children s = [] /\
    state s = Live /\
    forall later,
      forallb isCancel later = true ->
      received (run later s) = [] /\
      children (run later s) = [] /\
      tally isNormalize (journal (run later s)) = 0.
Proof.
  intros Hb T. split; [reflexivity|]. eexists _, _. split.
  - eapply subscribe_declined; [reflexivity | exact Hb | exact T].
  - do 5 (split; [reflexivity|]).
    intros later. induction later as [|ev later IH]; intros C.
    + repeat split.
    + simpl in C. apply andb_prop in C as [Cev C].
      destruct ev as [sig|]; [discriminate|].
      rewrite run_cons. destruct later as [|ev' later'].
      * repeat split.
      * rewrite run_terminated by reflexivity. repeat split.
Qed.

Lemma C4_falsy_result_is_no_source_witness :
  ToBoolean (Primitive (Number 0)) = false /\
  exists w' s,
    _subscribe FailsBySignal {| observableFactory := returnsZero |} 0 (start tt)
      = (w', Normal s) /\
    journal s = [Invoke] /\
    tally isNormalize (journal s) = 0 /\
    allocated w' = 0 /\
    children s = [] /\
    state s = Live /\
    forall later,
      forallb isCancel later = true ->
      received (run later s) = [] /\
      children (run later s) = [] /\
      tally isNormalize (journal (run later s)) = 0.
Proof.
  apply (C4_falsy_result_is_no_source FailsBySignal
           (fun e => (e, Normal (Primitive (Number 0)))) 0 (start tt) tt
           (Primitive (Number 0))); reflexivity.
Defined.

(** C9.  [create] and the constructor accept any value as the factory and
    return normally, leaving the world as it was.  A value that is not
    callable causes nothing until a subscription: there the call fails, the
    failure is caught, and the subscriber receives it as the one terminal
    error; no body has run and no child is owned. *)
Theorem C9_no_validation_of_the_factory {E : Type} (f : Callee E) (v : JsValue)
    (w : World E) (mode : FailureMode) (dest : nat) :
  create f w = (w, Normal {| observableFactory := f |}) /\
  DeferObservable_new f w = (w, Normal {| observableFactory := f |}) /\
  exists s,
    _subscribe mode {| observableFactory := NotCallable v |} dest w = (w, Normal s) /\
    journal s = [Forward (Error (TypeError "this.factory is not a function"))] /\
    children s = [] /\
    forall later,
      received (run later s) = [Error (TypeError "this.factory is not a function")].
Proof.
  split; [reflexivity|]. split; [reflexivity|]. eexists. split.
  - eapply subscribe_not_callable. reflexivity.
  - split; [reflexivity|]. split; [reflexivity|].
    intros later. rewrite run_terminated by reflexivity. reflexivity.
Qed.

Lemma occurrences_In (h : nat) (l : list nat) : In h l -> 1 <= occurrences h l.
Proof.
  induction l as [|k l IH]; simpl; [tauto|].
  intros [->|H].
  - rewrite Nat.eqb_refl. lia.
  - specialize (IH H). lia.
Qed.

Lemma live_has_no_terminal {E : Type} (s : DeferSubscriber E) :
  Sound s -> 1 <= terminals (received s) -> isLive s = false.
Proof.
  intros (_ & Hlive & _) T. destruct (isLive s); [|reflexivity].
  rewrite (valuesOnly_terminals _ (Hlive eq_refl)) in T. lia.
Qed.

(** C5.  Take any subscription and let any sequence of inner signals and
    cancellations reach it.  Downstream has then received at most one terminal
    signal, nothing after it, and, once it has received one, the subscriber
    owns no child and every resource that was handed to it has been
    released. *)
Theorem C5_at_most_one_terminal {E : Type} (mode : FailureMode)
    (this : DeferObservable E) (dest : nat) (w : World E) (later : list Event) :
  exists w' s,
    _subscribe mode this dest w = (w', Normal s) /\
    terminals (received (run later s)) <= 1 /\
    (forall pre sig post,
       received (run later s) = pre ++ sig :: post ->
       isTerminal sig = true -> post = []) /\
    (1 <= terminals (received (run later s)) ->
     children (run later s) = [] /\
     forall h,
       tally (isAdd h) (journal (run later s)) =
       tally (isRelease h) (journal (run later s))).
Proof.
  destruct (subscribe_returns mode this dest w) as (w' & s & Eq & W & _).
  exists w', s. split; [exact Eq|].
  destruct (run_WellFormed s later W) as (S1 & B & _).
  pose proof S1 as (Hlast & Hlive & Hdead).
  split; [apply terminalLast_terminals, Hlast|]. split.
  - intros pre sig post Hsplit Hsig.
    eapply terminalLast_nothing_after; eauto.
  - intros T. pose proof (live_has_no_terminal _ S1 T) as L.
    split; [auto|]. intros h. rewrite (B h), (Hdead L). simpl. lia.
Qed.

Section Release.
Context {E : Type}.
Implicit Types (s : DeferSubscriber E).

Lemma unsubscribe_twice s : unsubscribe (unsubscribe s) = unsubscribe s.
Proof. destruct s as [d f st ch j]; destruct st; reflexivity. Qed.

Lemma unsubscribe_deliver s : unsubscribe s = deliver s Unsubscribe.
Proof. reflexivity. Qed.

Lemma unsubscribe_childless s :
  children s = [] -> journal (unsubscribe s) = journal s.
Proof.
  destruct s as [d f st ch j]; destruct st; simpl; intros ->; simpl;
    rewrite ?app_nil_r; reflexivity.
Qed.

Lemma unsubscribe_children s : Sound s -> children (unsubscribe s) = [].
Proof.
  intros (_ & _ & Hdead). rewrite unsubscribe_deliver, deliver_children.
  destruct (isLive s) eqn:L; simpl; auto.
Qed.

Lemma unsubscribe_releases_owned s h :
  WellFormed s -> In h (children s) ->
  tally (isRelease h) (journal (unsubscribe s)) = 1.
Proof.
  intros W Hin.
  assert (W' : WellFormed (unsubscribe s))
    by (rewrite unsubscribe_deliver; apply deliver_WellFormed, W).
  destruct W as (S1 & B & A). destruct W' as (S1' & B' & A').
  pose proof (occurrences_In _ _ Hin) as O.
  pose proof (B h) as Bh. pose proof (B' h) as Bh'.
  rewrite (unsubscribe_children s S1) in Bh'. simpl in Bh'.
  pose proof (tally_isAdd_le_anyAdd h (journal s)).
  pose proof (tally_isAdd_le_anyAdd h (journal (unsubscribe s))).
  assert (K : tally (isAdd h) (journal (unsubscribe s)) = tally (isAdd h) (journal s)).
  { rewrite unsubscribe_deliver, deliver_journal, tally_app. unfold reaction.
    destruct (isLive s); simpl; rewrite ?tally_add_releases; lia. }
  lia.
Qed.

End Release.

(** C6.  Take any subscription in any state it can reach.  Releasing it leaves
    it owning nothing; every child it owned has then been released exactly
    once, and no resource more than once; releasing it again changes nothing.
    Releasing a subscriber that owns no child, as before the factory path has
    produced one, adds nothing to its journal. *)
Theorem C6_release_once_and_idempotent {E : Type} (mode : FailureMode)
    (this : DeferObservable E) (dest : nat) (w : World E) (later : list Event) :
  exists w' s,
    _subscribe mode this dest w = (w', Normal s) /\
    children (unsubscribe (run later s)) = [] /\
    (forall h, In h (children (run later s)) ->
       tally (isRelease h) (journal (unsubscribe (run later s))) = 1) /\
    (forall h,
       tally (isRelease h) (journal (unsubscribe (run later s))) =
       tally (isAdd h) (journal (unsubscribe (run later s))) /\
       tally (isRelease h) (journal (unsubscribe (run later s))) <= 1) /\
    unsubscribe (unsubscribe (run later s)) = unsubscribe (run later s) /\
    (forall s0 : DeferSubscriber E,
       unsubscribe (unsubscribe s0) = unsubscribe s0 /\
       (children s0 = [] -> journal (unsubscribe s0) = journal s0)) /\
    journal (unsubscribe (Subscriber_new dest (observableFactory this))) = [].
Proof.
  destruct (subscribe_returns mode this dest w) as (w' & s & Eq & W & _).
  exists w', s. split; [exact Eq|].
  pose proof (run_WellFormed s later W) as Wl.
  assert (Wu : WellFormed (unsubscribe (run later s)))
    by (rewrite unsubscribe_deliver; apply deliver_WellFormed, Wl).
  split; [apply unsubscribe_children, Wl|].
  split; [intros h; apply unsubscribe_releases_owned, Wl|].
  split.
  - intros h. destruct Wu as (S1 & B & A). pose proof (B h) as Bh.
    rewrite (unsubscribe_children _ (proj1 Wl)) in Bh. simpl in Bh.
    pose proof (tally_isAdd_le_anyAdd h (journal (unsubscribe (run later s)))).
    lia.
  - split; [apply unsubscribe_twice|]. split; [|reflexivity].
    intros s0. split; [apply unsubscribe_twice | apply unsubscribe_childless].
Qed.

(** C7.  When the factory returns a truthy value that normalization does not
    recognise, and normalization reports that by throwing, the exception is
    caught by the same handler as a throwing factory: downstream receives it
    as the one terminal error, no child is owned, and nothing else is ever
    forwarded. *)
Theorem C7_normalization_failure_is_contained {E : Type}
    (body : E -> E * Completion JsValue) (dest : nat) (w : World E) (e' : E)
    (result : JsValue) (why : Prim) :
  body (env w) = (e', Normal result) ->
  ToBoolean result = true ->
  normalize result = Unrecognized why ->
  exists w' s,
    _subscribe FailsSynchronously {| observableFactory := Function body |} dest w
      = (w', Normal s) /\
    journal s = [Invoke; Normalize result; Forward (Error why)] /\
    children s = [] /\
    forall later, received (run later s) = [Error why].
Proof.
  intros Hb T N. eexists _, _. split.
  - eapply subscribe_unrecognized_throw; [reflexivity | exact Hb | exact T | exact N].
  - split; [reflexivity|]. split; [reflexivity|].
    intros later. rewrite run_terminated by reflexivity. reflexivity.
Qed.

Lemma C7_normalization_failure_is_contained_witness :
  exists w' s,
    _subscribe FailsSynchronously {| observableFactory := returns7 |} 0 (start tt)
      = (w', Normal s) /\
    journal s =
      [Invoke; Normalize (Primitive (Number 7));
       Forward (Error (TypeError "You provided an invalid object where a stream was expected."))] /\
    children s = [] /\
    forall later,
      received (run later s) =
      [Error (TypeError "You provided an invalid object where a stream was expected.")].
Proof.
  apply (C7_normalization_failure_is_contained
           (fun e => (e, Normal (Primitive (Number 7)))) 0 (start tt) tt
           (Primitive (Number 7))
           (TypeError "You provided an invalid object where a stream was expected."));
    reflexivity.
Defined.

Section Setup.
Context {E : Type}.
Implicit Types (s : DeferSubscriber E).

(** While no child is registered, signals and cancellations release nothing
    and register nothing. *)
Lemma run_childless s evs :
  children s = [] ->
  children (run evs s) = [] /\
  tally anyRelease (journal (run evs s)) = tally anyRelease (journal s).
Proof.
  revert s. induction evs as [|ev evs IH]; intros s C; [auto|].
  rewrite run_cons.
  assert (C' : children (deliver s ev) = [])
    by (rewrite deliver_children, C; destruct (_ && _); reflexivity).
  destruct (IH _ C') as (K1 & K2). split; [exact K1|].
  rewrite K2, deliver_journal, tally_app. unfold reaction. rewrite C.
  destruct (isLive s); simpl; [|lia].
  destruct ev as [[v|e|]|]; simpl; lia.
Qed.

(** The subscriber as it stands when [subscribeToResult] hands back the inner
    subscription of a conformant producer. *)
Lemma before_registration dest (f : Callee E) result (p : Producer) :
  let before :=
    run (onSubscribe p)
      (record [Normalize result] (record [Invoke] (Subscriber_new dest f))) in
  children before = [] /\
  tally anyAdd (journal before) = 0 /\
  tally anyRelease (journal before) = 0 /\
  received before = observedDirectly (onSubscribe p) /\
  isLive before = quiet (onSubscribe p).
Proof.
  intros before. subst before.
  set (s0 := record [Normalize result] (record [Invoke] (Subscriber_new dest f))).
  destruct (run_childless s0 (onSubscribe p) eq_refl) as (C & R).
  split; [exact C|]. split; [rewrite run_anyAdd; reflexivity|].
  split; [rewrite R; reflexivity|]. split.
  - rewrite run_received. reflexivity.
  - rewrite run_isLive. reflexivity.
Qed.

End Setup.

(** C8.  When the factory returns a conformant producer, then after any
    further events downstream has received through the subscription exactly
    what it would have received from the producer directly: the same signals
    in the same order with the same terminal. *)
Theorem C8_pass_through {E : Type} (mode : FailureMode)
    (body : E -> E * Completion JsValue) (dest : nat) (w : World E) (e' : E)
    (p : Producer) (later : list Event) :
  body (env w) = (e', Normal (ObservableOf p)) ->
  exists w' s,
    _subscribe mode {| observableFactory := Function body |} dest w = (w', Normal s) /\
    received (run later s) = subscribeDirectly p later.
Proof.
  intros Hb. eexists _, _. split.
  - eapply subscribe_conformant; [reflexivity | exact Hb | reflexivity | reflexivity].
  - destruct (before_registration dest (Function body) (ObservableOf p) p)
      as (_ & _ & _ & R & L).
    rewrite run_received, add_received, add_isLive, R, L.
    unfold subscribeDirectly. rewrite observedDirectly_app. reflexivity.
Qed.

Lemma C8_pass_through_witness :
  exists w' s,
    _subscribe FailsBySignal {| observableFactory := ticking |} 0 (start tt)
      = (w', Normal s) /\
    received (run [Inner (Next (Number 1)); Inner Complete; Inner (Next (Number 2))] s) =
    subscribeDirectly {| onSubscribe := [Inner (Next (Number 0))] |}
      [Inner (Next (Number 1)); Inner Complete; Inner (Next (Number 2))].
Proof.
  apply (C8_pass_through FailsBySignal
           (fun e => (e, Normal (ObservableOf {| onSubscribe := [Inner (Next (Number 0))] |})))
           0 (start tt) tt {| onSubscribe := [Inner (Next (Number 0))] |}
           [Inner (Next (Number 1)); Inner Complete; Inner (Next (Number 2))]).
  reflexivity.
Defined.

(** C10.  When the factory returns a source that normalization accepts, the
    subscriber that [_subscribe] returns is the one that stood when
    [subscribeToResult] returned, with the inner subscription then handed to
    [add].  By that moment everything the producer pushed during the
    subscription has been forwarded, while no child was registered and none
    released; registration itself forwards nothing.  If the subscriber had
    terminated by then, the inner subscription is released by [add] and is
    never owned. *)
Theorem C10_registration_follows_synchronous_signals {E : Type} (mode : FailureMode)
    (body : E -> E * Completion JsValue) (dest : nat) (w : World E) (e' : E)
    (result : JsValue) (p : Producer) :
  body (env w) = (e', Normal result) ->
  ToBoolean result = true ->
  normalize result = Conformant p ->
  exists w' s before,
    _subscribe mode {| observableFactory := Function body |} dest w = (w', Normal s) /\
    before =
      run (onSubscribe p)
        (record [Normalize result]
           (record [Invoke] (Subscriber_new dest (Function body)))) /\
    s = add (allocated w) before /\
    children before = [] /\
    tally anyAdd (journal before) = 0 /\
    tally anyRelease (journal before) = 0 /\
    received before = observedDirectly (onSubscribe p) /\
    received s = received before /\
    journal s =
      journal before ++
      (if quiet (onSubscribe p) then [Add (allocated w)]
       else [Add (allocated w); Release (allocated w)]) /\
    children s = (if quiet (onSubscribe p) then [allocated w] else []).
Proof.
  intros Hb T N. eexists _, _, _. split.
  - eapply subscribe_conformant; [reflexivity | exact Hb | exact T | exact N].
  - split; [reflexivity|]. split; [reflexivity|].
    destruct (before_registration dest (Function body) result p)
      as (C & A & R & Rec & L).
    split; [exact C|]. split; [exact A|]. split; [exact R|]. split; [exact Rec|].
    split; [apply add_received|].
    rewrite add_journal, add_children, L, C. split; reflexivity.
Qed.

Lemma C10_registration_follows_synchronous_signals_witness :
  exists w' s before,
    _subscribe FailsBySignal {| observableFactory := oneTwoThree |} 0 (start tt)
      = (w', Normal s) /\
    before =
      run [Inner (Next (Number 1)); Inner (Next (Number 2));
           Inner (Next (Number 3)); Inner Complete]
        (record [Normalize (ObservableOf
                   {| onSubscribe := [Inner (Next (Number 1)); Inner (Next (Number 2));
                                      Inner (Next (Number 3)); Inner Complete] |})]
           (record [Invoke] (Subscriber_new 0 oneTwoThree))) /\
    s = add 0 before /\
    children before = [] /\
    tally anyAdd (journal before) = 0 /\
    tally anyRelease (journal before) = 0 /\
    received before = [Next (Number 1); Next (Number 2); Next (Number 3); Complete] /\
    received s = received before /\
    journal s = journal before ++ [Add 0; Release 0] /\
    children s = [].
Proof.
  apply (C10_registration_follows_synchronous_signals FailsBySignal
           (fun e => (e, Normal (ObservableOf
              {| onSubscribe := [Inner (Next (Number 1)); Inner (Next (Number 2));
                                 Inner (Next (Number 3)); Inner Complete] |})))
           0 (start tt) tt
           (ObservableOf
              {| onSubscribe := [Inner (Next (Number 1)); Inner (Next (Number 2));
                                 Inner (Next (Number 3)); Inner Complete] |})
           {| onSubscribe := [Inner (Next (Number 1)); Inner (Next (Number 2));
                              Inner (Next (Number 3)); Inner Complete] |});
    reflexivity.
Defined.

Section Independence.
Context {E : Type}.
Implicit Types (st : Store E) (s : DeferSubscriber E).

Lemma subscribe_appends mode (this : DeferObservable E) dest st w' s :
  _subscribe mode this dest (ambient st) = (w', Normal s) ->
  subscribe mode this dest st =
  ({| ambient := w'; objects := objects st ++ [s] |}, Normal (length (objects st))).
Proof. intros H. unfold subscribe. rewrite H. reflexivity. Qed.

(** Events sent to one address change the object at that address, as [run]
    says, and no other object. *)
Lemma signals_at st ref evs (pre post : list (DeferSubscriber E)) s :
  objects st = pre ++ s :: post ->
  length pre = ref ->
  objects (signals ref evs st) = pre ++ run evs s :: post /\
  ambient (signals ref evs st) = ambient st.
Proof.
  revert st s. induction evs as [|ev evs IH]; intros st s Ho Hl.
  - split; [exact Ho | reflexivity].
  - change (signals ref (ev :: evs) st) with (signals ref evs (signal ref st ev)).
    assert (Hs : signal ref st ev =
                 {| ambient := ambient st; objects := pre ++ deliver s ev :: post |}).
    { unfold signal. rewrite Ho.
      rewrite (list_lookup_middle pre post s ref (eq_sym Hl)).
      rewrite insert_app_r_alt by lia.
      replace (ref - length pre) with 0 by lia. reflexivity. }
    rewrite Hs. rewrite run_cons.
    destruct (IH {| ambient := ambient st; objects := pre ++ deliver s ev :: post |}
                 (deliver s ev) eq_refl Hl) as (K1 & K2).
    split; [exact K1 | exact K2].
Qed.

End Independence.

(** C2.  Two subscriptions to one producer that holds a function.  Each call
    returns normally with a subscriber object of its own, at an address that
    was free and with the first object left as it was; each call runs the
    factory body exactly once, before it returns, the second starting from the
    state the first body left; and events that later reach one of the two
    subscribers change that one alone. *)
Theorem C2_fresh_subscriber_per_subscription {E : Type} (mode : FailureMode)
    (body : E -> E * Completion JsValue) (dest1 dest2 : nat) (st : Store E) :
  exists st1 st2 s1 s2,
    subscribe mode {| observableFactory := Function body |} dest1 st
      = (st1, Normal (length (objects st))) /\
    subscribe mode {| observableFactory := Function body |} dest2 st1
      = (st2, Normal (S (length (objects st)))) /\
    objects st !! length (objects st) = None /\
    objects st1 = objects st ++ [s1] /\
    objects st2 = objects st ++ [s1; s2] /\
    destination s1 = dest1 /\ destination s2 = dest2 /\
    invocations (ambient st1) = S (invocations (ambient st)) /\
    invocations (ambient st2) = S (invocations (ambient st1)) /\
    tally isInvoke (journal s1) = 1 /\
    tally isInvoke (journal s2) = 1 /\
    env (ambient st1) = fst (body (env (ambient st))) /\
    env (ambient st2) = fst (body (env (ambient st1))) /\
    forall evs1 evs2,
      objects (signals (S (length (objects st))) evs2
                 (signals (length (objects st)) evs1 st2)) =
      objects st ++ [run evs1 s1; run evs2 s2] /\
      tally isInvoke (journal (run evs1 s1)) = 1 /\
      tally isInvoke (journal (run evs2 s2)) = 1.
Proof.
  destruct (subscribe_function mode body dest1 (ambient st))
    as (w1 & s1 & Eq1 & I1 & V1 & J1 & _ & (D1 & _)).
  pose (st1 := {| ambient := w1; objects := objects st ++ [s1] |}).
  destruct (subscribe_function mode body dest2 (ambient st1))
    as (w2 & s2 & Eq2 & I2 & V2 & J2 & _ & (D2 & _)).
  pose (st2 := {| ambient := w2; objects := objects st1 ++ [s2] |}).
  exists st1, st2, s1, s2.
  split; [apply subscribe_appends, Eq1|].
  split.
  { rewrite (subscribe_appends mode _ dest2 st1 w2 s2 Eq2). simpl.
    rewrite length_app. simpl. rewrite Nat.add_1_r. reflexivity. }
  split; [apply lookup_ge_None_2; lia|].
  split; [reflexivity|].
  split; [simpl; rewrite <- app_assoc; reflexivity|].
  do 8 (split; [assumption|]).
  intros evs1 evs2.
  destruct (signals_at st2 (length (objects st)) evs1 (objects st) [s2] s1)
    as (K1 & _); [simpl; rewrite <- app_assoc; reflexivity | reflexivity |].
  destruct (signals_at (signals (length (objects st)) evs1 st2)
              (S (length (objects st))) evs2 (objects st ++ [run evs1 s1]) [] s2)
    as (K2 & _).
  { rewrite K1, <- app_assoc. reflexivity. }
  { rewrite length_app. simpl. lia. }
  split; [rewrite K2, <- app_assoc; reflexivity|].
  rewrite !run_isInvoke. auto.
Qed.

(** Scenario 5 of the specification: a factory that counts its invocations.
    The first subscriber observes 1, the second 2. *)
Example counting_subscribers_observe_1_then_2 :
  exists st1 st2 s1 s2,
    subscribe FailsBySignal {| observableFactory := counting |} 10
      {| ambient := start 0%Z; objects := [] |} = (st1, Normal 0) /\
    subscribe FailsBySignal {| observableFactory := counting |} 11 st1 = (st2, Normal 1) /\
    objects st2 = [s1; s2] /\
    received s1 = [Next (Number 1); Complete] /\
    received s2 = [Next (Number 2); Complete].
Proof. eexists _, _, _, _. repeat split. Qed.

(** Scenarios 1 to 4 of the specification. *)
Example scenario_values_then_completion :
  exists w s,
    _subscribe FailsBySignal {| observableFactory := oneTwoThree |} 0 (start tt)
      = (w, Normal s) /\
    received s = [Next (Number 1); Next (Number 2); Next (Number 3); Complete].
Proof. eexists _, _. split; reflexivity. Qed.

Example scenario_boom :
  exists w s,
    _subscribe FailsBySignal {| observableFactory := throwsBoom |} 0 (start tt)
      = (w, Normal s) /\
    received s = [Error boom].
Proof. eexists _, _. split; reflexivity. Qed.

Example scenario_nothing :
  exists w s,
    _subscribe FailsBySignal {| observableFactory := declines |} 0 (start tt)
      = (w, Normal s) /\
    received s = [] /\ received (run [Unsubscribe] s) = [].
Proof. eexists _, _. repeat split. Qed.

Example scenario_deferred_value :
  exists w s,
    _subscribe FailsBySignal {| observableFactory := promises42 |} 0 (start tt)
      = (w, Normal s) /\
    received s = [] /\
    received (run (settlement (PromiseLike (Number 42))) s) = [Next (Number 42); Complete].
Proof. eexists _, _. repeat split. Qed.

(** Scenario 6: cancelling at once releases the inner subscription once and
    forwards nothing, also when the source resolves afterwards. *)
Example scenario_cancel_at_once :
  exists w s,
    _subscribe FailsBySignal {| observableFactory := promises42 |} 0 (start tt)
      = (w, Normal s) /\
    children s = [0] /\
    received (run (Unsubscribe :: settlement (PromiseLike (Number 42))) s) = [] /\
    tally (isRelease 0)
      (journal (run (Unsubscribe :: settlement (PromiseLike (Number 42))) s)) = 1.
Proof. eexists _, _. repeat split. Qed.

(** * Further properties of the two classes *)

Section Traces.
Context {E : Type}.
Implicit Types (s : DeferSubscriber E) (ev : Event) (evs : list Event).

Lemma tally_releases_other (pick : Effect -> bool) (l : list nat) :
  (forall h, pick (Release h) = false) -> tally pick (map Release l) = 0.
Proof. intros H. induction l as [|k l IH]; simpl; [reflexivity | rewrite H, IH; reflexivity]. Qed.

(** Events add forwards and releases to a journal, and nothing else. *)
Lemma deliver_tally_other (pick : Effect -> bool) s ev :
  (forall sig, pick (Forward sig) = false) ->
  (forall h, pick (Release h) = false) ->
  tally pick (journal (deliver s ev)) = tally pick (journal s).
Proof.
  intros HF HR. rewrite deliver_journal, tally_app. unfold reaction.
  destruct (isLive s); simpl; [|lia].
  destruct ev as [[v|e|]|]; simpl;
    rewrite ?HF, ?(tally_releases_other pick _ HR); lia.
Qed.

Lemma run_tally_other (pick : Effect -> bool) s evs :
  (forall sig, pick (Forward sig) = false) ->
  (forall h, pick (Release h) = false) ->
  tally pick (journal (run evs s)) = tally pick (journal s).
Proof.
  intros HF HR. revert s. induction evs as [|ev evs IH]; intros s; [reflexivity|].
  rewrite run_cons, IH. apply deliver_tally_other; assumption.
Qed.

Lemma add_isNormalize child s :
  tally isNormalize (journal (add child s)) = tally isNormalize (journal s).
Proof. rewrite add_journal, tally_app. destruct (isLive s); simpl; lia. Qed.

Lemma run_isNormalize s evs :
  tally isNormalize (journal (run evs s)) = tally isNormalize (journal s).
Proof. apply run_tally_other; reflexivity. Qed.

(** Events never give a subscriber a child it did not own before. *)
Lemma deliver_children_kept s ev h :
  In h (children (deliver s ev)) -> In h (children s).
Proof.
  rewrite deliver_children. destruct (isLive s && negb (keepsLive ev)); simpl; tauto.
Qed.

Lemma run_children_kept s evs h : In h (children (run evs s)) -> In h (children s).
Proof.
  revert s. induction evs as [|ev evs IH]; intros s H; [exact H|].
  rewrite run_cons in H. eapply deliver_children_kept, IH, H.
Qed.

Lemma deliver_children_length s ev :
  length (children (deliver s ev)) <= length (children s).
Proof.
  rewrite deliver_children. destruct (isLive s && negb (keepsLive ev)); simpl; lia.
Qed.

Lemma run_children_length s evs :
  length (children (run evs s)) <= length (children s).
Proof.
  revert s. induction evs as [|ev evs IH]; intros s; [reflexivity|].
  rewrite run_cons. etransitivity; [apply IH | apply deliver_children_length].
Qed.

(** The journal of a subscriber that owns no child grows by the forwards of
    what a direct consumer would observe, and by nothing else. *)
Lemma run_journal_childless s evs :
  children s = [] ->
  journal (run evs s) =
  journal s ++ map Forward (if isLive s then observedDirectly evs else []).
Proof.
  revert s. induction evs as [|ev evs IH]; intros s C.
  - simpl. destruct (isLive s); simpl; rewrite app_nil_r; reflexivity.
  - rewrite run_cons.
    assert (C' : children (deliver s ev) = [])
      by (rewrite deliver_children, C; destruct (_ && _); reflexivity).
    rewrite (IH _ C'), deliver_journal, deliver_isLive. unfold reaction. rewrite C.
    destruct (isLive s); simpl.
    + destruct ev as [[v|e|]|]; simpl; rewrite <- ?app_assoc; reflexivity.
    + rewrite !app_nil_r. reflexivity.
Qed.

End Traces.

(** X2.  [subscribeToResult] is reached exactly when the factory returns and
    its result is truthy, and then once: the journal of the new subscriber has
    one normalization in that case and none when the factory throws, returns
    a falsy value or is not callable.  Later events do not change that. *)
Theorem X2_normalization_only_for_truthy_results {E : Type} (mode : FailureMode)
    (this : DeferObservable E) (dest : nat) (w : World E) (later : list Event) :
  exists w' s,
    _subscribe mode this dest w = (w', Normal s) /\
    tally isNormalize (journal (run later s)) =
    match observableFactory this with
    | NotCallable _ => 0
    | Function body => if reachesNormalization (snd (body (env w))) then 1 else 0
    end.
Proof.
  destruct (observableFactory this) as [body|v] eqn:F.
  - destruct (body (env w)) as [e' [result|err]] eqn:Hb; simpl.
    + destruct (ToBoolean result) eqn:T.
      * destruct (normalize result) as [p|why] eqn:N.
        -- eexists _, _. split; [eapply subscribe_conformant; eauto|].
           rewrite run_isNormalize, add_isNormalize, run_isNormalize. reflexivity.
        -- destruct mode.
           ++ eexists _, _. split; [eapply subscribe_unrecognized_throw; eauto|].
              rewrite run_isNormalize. reflexivity.
           ++ eexists _, _. split; [eapply subscribe_unrecognized_signal; eauto|].
              rewrite run_isNormalize, add_isNormalize. reflexivity.
      * eexists _, _. split; [eapply subscribe_declined; eauto|].
        rewrite run_isNormalize. reflexivity.
    + eexists _, _. split; [eapply subscribe_throws; eauto|].
      rewrite run_isNormalize. reflexivity.
  - eexists _, _. split; [eapply subscribe_not_callable; eauto|].
    rewrite run_isNormalize. reflexivity.
Qed.

Section Children.
Context {E : Type}.
Implicit Types (w : World E) (s : DeferSubscriber E).

(** The children of the subscriber that [_subscribe] returns. *)
Lemma subscribe_children mode (this : DeferObservable E) dest w :
  exists w' s,
    _subscribe mode this dest w = (w', Normal s) /\
    (children s = [] \/ children s = [allocated w]).
Proof.
  destruct (observableFactory this) as [body|v] eqn:F.
  - destruct (body (env w)) as [e' [result|err]] eqn:Hb.
    + destruct (ToBoolean result) eqn:T.
      * destruct (normalize result) as [p|why] eqn:N.
        -- eexists _, _. split; [eapply subscribe_conformant; eauto|].
           destruct (before_registration dest (Function body) result p)
             as (C & _ & _ & _ & L).
           rewrite add_children, L, C. destruct (quiet (onSubscribe p)); auto.
        -- destruct mode.
           ++ eexists _, _. split; [eapply subscribe_unrecognized_throw; eauto|].
              left. reflexivity.
           ++ eexists _, _. split; [eapply subscribe_unrecognized_signal; eauto|].
              left. reflexivity.
      * eexists _, _. split; [eapply subscribe_declined; eauto|]. left. reflexivity.
    + eexists _, _. split; [eapply subscribe_throws; eauto|]. left. reflexivity.
  - eexists _, _. split; [eapply subscribe_not_callable; eauto|]. left. reflexivity.
Qed.

End Children.

(** X3.  A subscriber of this class manages at most one inner subscription.
    In every state it can reach it owns at most one child; a child it owns is
    the inner subscription created during its own [_subscribe] call; and [add]
    has been called at most once. *)
Theorem X3_at_most_one_child {E : Type} (mode : FailureMode)
    (this : DeferObservable E) (dest : nat) (w : World E) (later : list Event) :
  exists w' s,
    _subscribe mode this dest w = (w', Normal s) /\
    length (children (run later s)) <= 1 /\
    (forall h, In h (children (run later s)) -> h = allocated w) /\
    tally anyAdd (journal (run later s)) <= 1.
Proof.
  destruct (subscribe_children mode this dest w) as (w' & s & Eq & C).
  destruct (subscribe_returns mode this dest w) as (w2 & s2 & Eq2 & (_ & _ & A) & _).
  rewrite Eq in Eq2. injection Eq2 as <- <-.
  exists w', s. split; [exact Eq|].
  pose proof (run_children_length s later) as L. split; [|split].
  - destruct C as [C|C]; rewrite C in L; simpl in L; lia.
  - intros h H. apply run_children_kept in H.
    destruct C as [C|C]; rewrite C in H; simpl in H; intuition.
  - rewrite run_anyAdd. exact A.
Qed.

(** X4.  The order of effects in a subscription whose factory returns a source
    that normalization accepts: first the one invocation, then the one
    normalization, then the forwards of what the producer pushes during the
    subscription (up to its first terminal signal or a cancellation), and only
    then the call of [add]; nothing is released before [add].  The world has
    one more invocation and one more inner subscription. *)
Theorem X4_order_of_effects {E : Type} (mode : FailureMode)
    (body : E -> E * Completion JsValue) (dest : nat) (w : World E) (e' : E)
    (result : JsValue) (p : Producer) :
  body (env w) = (e', Normal result) ->
  ToBoolean result = true ->
  normalize result = Conformant p ->
  exists s,
    _subscribe mode {| observableFactory := Function body |} dest w
      = (allocate (invoked w e'), Normal s) /\
    journal s =
      [Invoke; Normalize result] ++
      map Forward (observedDirectly (onSubscribe p)) ++
      (if quiet (onSubscribe p) then [Add (allocated w)]
       else [Add (allocated w); Release (allocated w)]).
Proof.
  intros Hb T N. eexists. split.
  - eapply subscribe_conformant; [reflexivity | exact Hb | exact T | exact N].
  - destruct (before_registration dest (Function body) result p)
      as (_ & _ & _ & _ & L).
    rewrite add_journal, L, run_journal_childless by reflexivity.
    simpl. rewrite <- ?app_assoc. reflexivity.
Qed.

Lemma X4_order_of_effects_witness :
  exists s,
    _subscribe FailsBySignal {| observableFactory := ticking |} 0 (start tt)
      = (allocate (invoked (start tt) tt), Normal s) /\
    journal s =
      [Invoke; Normalize (ObservableOf {| onSubscribe := [Inner (Next (Number 0))] |})] ++
      map Forward (observedDirectly [Inner (Next (Number 0))]) ++ [Add 0].
Proof.
  apply (X4_order_of_effects FailsBySignal
           (fun e => (e, Normal (ObservableOf {| onSubscribe := [Inner (Next (Number 0))] |})))
           0 (start tt) tt
           (ObservableOf {| onSubscribe := [Inner (Next (Number 0))] |})
           {| onSubscribe := [Inner (Next (Number 0))] |});
    reflexivity.
Defined.

(** X5.  A truthy result that normalization does not recognise ends the
    subscription with the same outcome whichever way the failure is
    reported, by an exception that [tryDefer] catches or by an error signal
    followed by [add]: downstream receives that one error and nothing else,
    ever; the subscriber has terminated as errored and owns no child; and an
    inner subscription was handed to [add] only if it was also released. *)
Theorem X5_unrecognised_result_either_way {E : Type} (mode : FailureMode)
    (body : E -> E * Completion JsValue) (dest : nat) (w : World E) (e' : E)
    (result : JsValue) (why : Prim) (later : list Event) :
  body (env w) = (e', Normal result) ->
  ToBoolean result = true ->
  normalize result = Unrecognized why ->
  exists w' s,
    _subscribe mode {| observableFactory := Function body |} dest w = (w', Normal s) /\
    state s = Terminated Errored /\
    received (run later s) = [Error why] /\
    children (run later s) = [] /\
    tally anyAdd (journal (run later s)) = tally anyRelease (journal (run later s)).
Proof.
  intros Hb T N. destruct mode.
  - eexists _, _. split.
    + eapply subscribe_unrecognized_throw; [reflexivity | exact Hb | exact T | exact N].
    + rewrite run_terminated by reflexivity. repeat split.
  - eexists _, _. split.
    + eapply subscribe_unrecognized_signal; [reflexivity | exact Hb | exact T | exact N].
    + rewrite run_terminated by reflexivity. repeat split.
Qed.

Lemma X5_unrecognised_result_either_way_witness :
  exists w' s,
    _subscribe FailsBySignal {| observableFactory := returns7 |} 0 (start tt)
      = (w', Normal s) /\
    state s = Terminated Errored /\
    received (run [Inner (Next (Number 1)); Unsubscribe] s) =
      [Error (TypeError "You provided an invalid object where a stream was expected.")] /\
    children (run [Inner (Next (Number 1)); Unsubscribe] s) = [] /\
    tally anyAdd (journal (run [Inner (Next (Number 1)); Unsubscribe] s)) =
    tally anyRelease (journal (run [Inner (Next (Number 1)); Unsubscribe] s)).
Proof.
  apply (X5_unrecognised_result_either_way FailsBySignal
           (fun e => (e, Normal (Primitive (Number 7)))) 0 (start tt) tt
           (Primitive (Number 7))
           (TypeError "You provided an invalid object where a stream was expected.")
           [Inner (Next (Number 1)); Unsubscribe]);
    reflexivity.
Defined.

(** X6.  Whether the subscription is still running is decided by the outcome
    of the factory alone.  When [_subscribe] returns, the subscriber is live
    exactly when the factory returned a falsy value, or returned an accepted
    source that neither terminated nor was cancelled during the subscription;
    it owns a child exactly in the second case.  Afterwards it stays live as
    long as only values arrive. *)
Theorem X6_live_after_subscribe {E : Type} (mode : FailureMode)
    (body : E -> E * Completion JsValue) (dest : nat) (w : World E)
    (later : list Event) :
  exists w' s,
    _subscribe mode {| observableFactory := Function body |} dest w = (w', Normal s) /\
    isLive s = staysLive (snd (body (env w))) /\
    children s =
      (if staysLive (snd (body (env w))) && reachesNormalization (snd (body (env w)))
       then [allocated w] else []) /\
    isLive (run later s) = staysLive (snd (body (env w))) && quiet later.
Proof.
  assert (F : observableFactory {| observableFactory := Function body |} = Function body)
    by reflexivity.
  destruct (body (env w)) as [e' [result|err]] eqn:Hb; simpl.
  - destruct (ToBoolean result) eqn:T.
    + destruct (normalize result) as [p|why] eqn:N.
      * eexists _, _. split; [eapply subscribe_conformant; eauto|].
        destruct (before_registration dest (Function body) result p)
          as (C & _ & _ & _ & L).
        rewrite run_isLive, add_isLive, add_children, L, C.
        rewrite andb_true_r. repeat split.
      * destruct mode.
        -- eexists _, _. split; [eapply subscribe_unrecognized_throw; eauto|].
           rewrite run_isLive. repeat split.
        -- eexists _, _. split; [eapply subscribe_unrecognized_signal; eauto|].
           rewrite run_isLive. repeat split.
    + eexists _, _. split; [eapply subscribe_declined; eauto|].
      rewrite run_isLive. repeat split.
  - eexists _, _. split; [eapply subscribe_throws; eauto|].
    rewrite run_isLive. repeat split.
Qed.

Section Outcome.
Context {E : Type}.
Implicit Types (w : World E) (s : DeferSubscriber E) (body : E -> E * Completion JsValue).

(** One subscription to a producer that holds a function: the body is applied
    to the closed-over state of the moment, its state is kept, and its outcome
    decides what the new subscriber has done and whether it is live. *)
Lemma subscribe_outcome mode body dest w :
  exists w' s,
    _subscribe mode {| observableFactory := Function body |} dest w = (w', Normal s) /\
    invocations w' = S (invocations w) /\
    env w' = fst (body (env w)) /\
    tally isInvoke (journal s) = 1 /\
    destination s = dest /\
    isLive s = staysLive (snd (body (env w))) /\
    Reflects (snd (body (env w))) s.
Proof.
  destruct (subscribe_function mode body dest w)
    as (w' & s & Eq & I & V & J & _ & (D & _)).
  exists w', s. do 5 (split; [assumption|]).
  assert (F : observableFactory {| observableFactory := Function body |} = Function body)
    by reflexivity.
  clear I V J D. destruct (body (env w)) as [e' [result|err]] eqn:Hb; simpl.
  - destruct (ToBoolean result) eqn:T.
    + destruct (normalize result) as [p|why] eqn:N.
      * rewrite (subscribe_conformant mode _ dest w body e' result p F Hb T N) in Eq.
        injection Eq as <- <-.
        destruct (before_registration dest (Function body) result p)
          as (_ & _ & _ & _ & L).
        split; [rewrite add_isLive; exact L|].
        rewrite add_journal, run_journal_childless by reflexivity.
        simpl. eexists. reflexivity.
      * destruct mode.
        -- rewrite (subscribe_unrecognized_throw _ dest w body e' result why F Hb T N) in Eq.
           injection Eq as <- <-. split; [reflexivity|]. eexists. reflexivity.
        -- rewrite (subscribe_unrecognized_signal _ dest w body e' result why F Hb T N) in Eq.
           injection Eq as <- <-. split; [reflexivity|]. eexists. reflexivity.
    + rewrite (subscribe_declined mode _ dest w body e' result F Hb T) in Eq.
      injection Eq as <- <-. split; reflexivity.
  - rewrite (subscribe_throws mode _ dest w body e' err F Hb) in Eq.
    injection Eq as <- <-. split; reflexivity.
Qed.

End Outcome.

(** C1.  Constructing a deferred producer, through [create] or through the
    constructor, returns the producer and leaves the world exactly as it was,
    so no factory body has run.  Every [_subscribe] on a producer that holds a
    function applies the body, once, to the closed-over state of that moment:
    the world keeps the state the body left, and the new subscriber shows the
    body's outcome, the thrown value as the forwarded error or the returned
    value as what was handed on. *)
Theorem C1_no_eager_evaluation {E : Type} (f : Callee E) (w : World E) :
  create f w = (w, Normal {| observableFactory := f |}) /\
  DeferObservable_new f w = (w, Normal {| observableFactory := f |}) /\
  forall mode body dest (w0 : World E),
    exists w' s,
      _subscribe mode {| observableFactory := Function body |} dest w0 = (w', Normal s) /\
      invocations w' = S (invocations w0) /\
      tally isInvoke (journal s) = 1 /\
      env w' = fst (body (env w0)) /\
      Reflects (snd (body (env w0))) s /\
      isLive s = staysLive (snd (body (env w0))).
Proof.
  split; [reflexivity|]. split; [reflexivity|].
  intros mode body dest w0.
  destruct (subscribe_outcome mode body dest w0)
    as (w' & s & Eq & I & V & J & _ & L & R).
  exists w', s. auto 10.
Qed.

(** X7.  Subscribing a list of consumers to one producer that holds a function
    runs the factory body once per consumer and reuses nothing.  The call
    returns one new address per consumer, in order; the store grows by one
    subscriber per consumer, each bound to its own consumer, while the
    subscribers that existed before are left as they were.  The body is
    applied again for every consumer, to the state the run before it left: the
    world ends in the state after that many runs, and the subscriber of the
    n-th consumer shows the outcome of the n-th run and is live as that
    outcome says. *)
Theorem X7_one_invocation_per_subscriber {E : Type} (mode : FailureMode)
    (body : E -> E * Completion JsValue) (consumers : list nat) (st : Store E) :
  exists st' news,
    subscribeAll mode {| observableFactory := Function body |} consumers st
      = (st', Normal (seq (length (objects st)) (length consumers))) /\
    objects st' = objects st ++ news /\
    map destination news = consumers /\
    Forall (fun s => tally isInvoke (journal s) = 1) news /\
    invocations (ambient st') = invocations (ambient st) + length consumers /\
    env (ambient st') = stateAfter body (length consumers) (env (ambient st)) /\
    Forall2 Reflects
      (successiveOutcomes body (length consumers) (env (ambient st))) news /\
    map isLive news =
    map staysLive (successiveOutcomes body (length consumers) (env (ambient st))).
Proof.
  revert st. induction consumers as [|c rest IH]; intros st.
  - exists st, []. simpl. rewrite app_nil_r, Nat.add_0_r. repeat split; constructor.
  - destruct (subscribe_outcome mode body c (ambient st))
      as (w1 & s1 & Eq1 & I1 & V1 & J1 & D1 & L1 & R1).
    pose (st1 := {| ambient := w1; objects := objects st ++ [s1] |}).
    destruct (IH st1) as (st' & news & EqA & O & D & J & I & V & R & L).
    simpl in V, R, L. rewrite V1 in V, R, L.
    exists st', (s1 :: news).
    split; [|split; [|split; [|split; [|split; [|split; [|split]]]]]].
    + simpl. unfold bind at 1.
      rewrite (subscribe_appends mode _ c st w1 s1 Eq1). fold st1.
      unfold bind at 1. rewrite EqA. unfold ret. simpl.
      rewrite length_app. simpl. rewrite Nat.add_1_r. reflexivity.
    + rewrite O. simpl. rewrite <- app_assoc. reflexivity.
    + simpl. rewrite D1, D. reflexivity.
    + constructor; assumption.
    + rewrite I. simpl. lia.
    + exact V.
    + simpl. constructor; assumption.
    + simpl. rewrite L1, L. reflexivity.
Qed.
